(* ===================================================================== *)
(* hummingbot: Wazirx order-book message translation, fee/exchange       *)
(* configuration helpers, and the user-stream listener life cycle.       *)
(*                                                                       *)
(* Python objects that the code mutates in place (dicts, lists) live in  *)
(* an explicit store indexed by object identity, so that aliasing        *)
(* between an argument and a returned value is visible in the model.     *)
(* ===================================================================== *)

From Stdlib Require Import ZArith.
From Stdlib Require QArith_base.
From stdpp Require Import gmap strings list fin_maps.

Local Open Scope string_scope.
Local Open Scope list_scope.

(* --------------------------------------------------------------------- *)
(* Python values, objects and exceptions                                 *)
(* --------------------------------------------------------------------- *)

Module Py.

(** Object identity (what Python's [id] / [is] observe). *)
Definition loc := positive.
Bind Scope positive_scope with loc.

(** Python floats are only carried around and produced from small
    integers by [float(...)]; they are kept as exact rationals. *)
Definition float := QArith_base.Q.

Definition float_of_int (z : Z) : float := QArith_base.inject_Z z.

(** Immutable values stored in a decoded JSON frame. *)
#[warnings="-register-all"]
Inductive value :=
| VNone
| VBool (b : bool)
| VInt (z : Z)
| VFloat (f : float)
| VStr (s : string)
| VList (l : list value).

(** [Optional[float]] as a value. *)
Definition of_optional_float (t : option float) : value :=
  match t with
  | Some f => VFloat f
  | None => VNone
  end.

(** [v == s] for a string literal [s]. *)
Definition eq_str (v : value) (s : string) : bool :=
  match v with
  | VStr s' => bool_decide (s' = s)
  | _ => false
  end.

Inductive exn :=
| KeyError (key : string)
| NotImplementedError (message : string).

Inductive result (A : Type) :=
| Ret (a : A)
| Raise (e : exn).
Arguments Ret {A} a.
Arguments Raise {A} e.

(** The store of dict objects.  Every reference a caller holds is live in
    Python; a location without an entry reads as the empty dict. *)
Abbreviation dict := (gmap string value).
Abbreviation heap := (gmap loc (gmap string value)).

(** A computation over the store that may raise. *)
Definition M (A : Type) : Type := heap -> result A * heap.

Definition ret {A} (a : A) : M A := fun h => (Ret a, h).

Definition raise {A} (e : exn) : M A := fun h => (Raise e, h).

Definition bind {A B} (m : M A) (k : A -> M B) : M B :=
  fun h =>
    match m h with
    | (Ret a, h') => k a h'
    | (Raise e, h') => (Raise e, h')
    end.

(** Contents of the dict object at [l]. *)
Definition deref (l : loc) : M (gmap string value) :=
  fun h => (Ret (h !!! l), h).

(** [bool(d)] for [d : Optional[Dict]]: [None] and the empty dict are
    falsy. *)
Definition truthy (d : option loc) : M bool :=
  fun h =>
    match d with
    | None => (Ret false, h)
    | Some l => (Ret (negb (bool_decide (h !!! l = (∅ : gmap string value)))), h)
    end.

(** [target.update(entries)]: in place, entries of the argument win. *)
Definition dict_update (target : loc) (entries : gmap string value) : M unit :=
  fun h => (Ret tt, <[target := entries ∪ (h !!! target)]> h).

(** [d[key]]: raises [KeyError] on a missing key. *)
Definition dict_getitem (d : loc) (key : string) : M value :=
  fun h =>
    match (h !!! d : gmap string value) !! key with
    | Some v => (Ret v, h)
    | None => (Raise (KeyError key), h)
    end.

(** [d.get(key)]: [None] on a missing key. *)
Definition dict_get (d : loc) (key : string) : M value :=
  fun h => (Ret (default VNone ((h !!! d : gmap string value) !! key)), h).

End Py.

Declare Scope py_scope.
Delimit Scope py_scope with py.
Notation "x <- m ;; k" := (Py.bind m (fun x => k))
  (at level 100, m at next level, right associativity) : py_scope.
Notation "m ;;; k" := (Py.bind m (fun _ => k))
  (at level 100, right associativity) : py_scope.

(* --------------------------------------------------------------------- *)
(* hummingbot/connector/exchange/wazirx/wazirx_order_book.py             *)
(* --------------------------------------------------------------------- *)

Module WazirxOrderBook.
Import Py.
Local Open Scope py_scope.

Inductive OrderBookMessageType := SNAPSHOT | DIFF | TRADE.

(** Modelled from the spec: the class [WazirxOrderBookMessage] (module
    [wazirx_order_book_message]) is not part of the sources at hand.  It is
    the tagged stream event of the data model: a tag, a payload and a
    timestamp, kept exactly as the three keyword arguments the constructors
    below pass.  [content] is the identity of the dict object, not a copy. *)
Record WazirxOrderBookMessage := {
  message_type : OrderBookMessageType;
  content : loc;
  timestamp : option float
}.

(** Modelled from the spec: the base class [OrderBook] is not part of the
    sources at hand; an order book state is two sides of (price, amount)
    entries and the last applied update id. *)
Record OrderBook := {
  bids : list (float * float);
  asks : list (float * float);
  last_update_id : Z
}.

(** The module-level logger slot of [wazirx_order_book], together with the
    part of the [logging] library it talks to: the manager's table of
    loggers by name and the next fresh object identity. *)
Record Globals := {
  _logger : option loc;
  loggerDict : gmap string loc;
  next_id : loc
}.

Definition __name__ : string :=
  "hummingbot.connector.exchange.wazirx.wazirx_order_book".

(** [logging.getLogger(name)], as far as [logger] depends on it: the logger
    registered under [name], created and registered on first request.  What
    the library keeps besides for the parent packages of a name is left
    out. *)
Definition getLogger (name : string) (g : Globals) : loc * Globals :=
  match loggerDict g !! name with
  | Some l => (l, g)
  | None =>
      (next_id g,
       {| _logger := _logger g;
          loggerDict := <[name := next_id g]> (loggerDict g);
          next_id := Pos.succ (next_id g) |})
  end.

Definition logger (g : Globals) : loc * Globals :=
  match _logger g with
  | None =>
      let '(l, g') := getLogger __name__ g in
      (l, {| _logger := Some l;
             loggerDict := loggerDict g';
             next_id := next_id g' |})
  | Some l => (l, g)
  end.

(** [n] calls of [logger] in a row: what each returned, and the globals
    after the last. *)
Fixpoint logger_calls (n : nat) (g : Globals) : list loc * Globals :=
  match n with
  | O => ([], g)
  | S n' =>
      let '(l, g1) := logger g in
      let '(ls, g2) := logger_calls n' g1 in
      (l :: ls, g2)
  end.

(** [if metadata: msg.update(metadata)] *)
Definition merge_metadata (msg : loc) (metadata : option loc) : M unit :=
  t <- truthy metadata ;;
  match t, metadata with
  | true, Some md => entries <- deref md ;; dict_update msg entries
  | _, _ => ret tt
  end.

Definition snapshot_message_from_exchange
    (msg : loc) (timestamp : float) (metadata : option loc)
  : M WazirxOrderBookMessage :=
  merge_metadata msg metadata ;;;
  ret {| message_type := SNAPSHOT; content := msg; timestamp := Some timestamp |}.

Definition diff_message_from_exchange
    (msg : loc) (timestamp : option float) (metadata : option loc)
  : M WazirxOrderBookMessage :=
  merge_metadata msg metadata ;;;
  ret {| message_type := DIFF; content := msg; timestamp := timestamp |}.

Section Constants.

(** [constants.EXCHANGE_NAME] and the values of the [TradeType] enum
    members come from modules that are not part of the sources. *)
Variable EXCHANGE_NAME : string.
Variables TradeType_SELL_value TradeType_BUY_value : Z.

(** The dict display passed to the second [msg.update] of
    [trade_message_from_exchange]; its items are evaluated in order and
    [msg["S"]] raises when the key is missing. *)
Definition trade_fields (msg : loc) (timestamp : option float)
  : M (gmap string value) :=
  side <- dict_getitem msg "S" ;;
  t <- dict_get msg "t" ;;
  p <- dict_get msg "p" ;;
  q <- dict_get msg "q" ;;
  ret (<["amount" := q]>
       (<["price" := p]>
        (<["update_id" := of_optional_float timestamp]>
         (<["trade_id" := t]>
          {["trade_type" :=
              VFloat (if eq_str side "sell"
                      then float_of_int TradeType_SELL_value
                      else float_of_int TradeType_BUY_value)]})))).

Definition trade_message_from_exchange
    (msg : loc) (timestamp : option float) (metadata : option loc)
  : M WazirxOrderBookMessage :=
  merge_metadata msg metadata ;;;
  fields <- trade_fields msg timestamp ;;
  dict_update msg fields ;;;
  ret {| message_type := TRADE; content := msg; timestamp := timestamp |}.

Definition not_supported : string :=
  EXCHANGE_NAME +:+ " order book needs to retain individual order data.".

Definition from_snapshot (snapshot : WazirxOrderBookMessage) : M OrderBook :=
  raise (NotImplementedError not_supported).

Definition restore_from_snapshot_and_diffs
    (snapshot : WazirxOrderBookMessage) (diffs : list WazirxOrderBookMessage)
  : M OrderBook :=
  raise (NotImplementedError not_supported).

(** The five entries a trade message adds, read off a dict [d] whose
    side is [side]. *)
Definition trade_entries (side : value) (timestamp : option float)
    (d : gmap string value) : gmap string value :=
  <["amount" := default VNone (d !! "q")]>
  (<["price" := default VNone (d !! "p")]>
   (<["update_id" := of_optional_float timestamp]>
    (<["trade_id" := default VNone (d !! "t")]>
     {["trade_type" :=
         VFloat (if eq_str side "sell"
                 then float_of_int TradeType_SELL_value
                 else float_of_int TradeType_BUY_value)]}))).

End Constants.

(** In the words of the specification: the payload is [msg], merged with
    [metadata] when metadata is given (entries of the metadata win). *)
Definition merged (h : heap) (msg : loc) (metadata : option loc)
  : gmap string value :=
  match metadata with
  | Some md => (h !!! md) ∪ (h !!! msg)
  | None => h !!! msg
  end.

(** The store once [if metadata: msg.update(metadata)] has run. *)
Definition after_merge (h : heap) (msg : loc) (metadata : option loc) : heap :=
  match metadata with
  | Some md =>
      if bool_decide (h !!! md = (∅ : gmap string value)) then h
      else <[msg := (h !!! md) ∪ (h !!! msg)]> h
  | None => h
  end.

(** A store for examples: object 1 is a trade frame, object 2 a metadata
    dict, object 3 an empty dict. *)
Definition sample_store : heap :=
  <[1%positive := <["S" := VStr "sell"]> {["p" := VStr "100.5"]}]>
  (<[2%positive := {["trading_pair" := VStr "btcinr"]}]>
   {[3%positive := ∅]}).

(** The payload a message carries, read through its reference. *)
Definition payload (m : WazirxOrderBookMessage) (h : heap)
  : gmap string value :=
  h !!! content m.

(** A row of the backtesting tables ([sqlalchemy.engine.RowProxy]), as far
    as the [_from_db] constructors read it: its [json] column, a dict
    object, and its [timestamp] column. *)
Record RowProxy := {
  json : loc;
  row_timestamp : option float
}.

Definition snapshot_message_from_db (record : RowProxy) (metadata : option loc)
  : M WazirxOrderBookMessage :=
  ret {| message_type := SNAPSHOT;
         content := json record;
         timestamp := row_timestamp record |}.

Definition diff_message_from_db (record : RowProxy) (metadata : option loc)
  : M WazirxOrderBookMessage :=
  ret {| message_type := DIFF;
         content := json record;
         timestamp := row_timestamp record |}.

Definition trade_message_from_db (record : RowProxy) (metadata : option loc)
  : M WazirxOrderBookMessage :=
  ret {| message_type := TRADE;
         content := json record;
         timestamp := row_timestamp record |}.

(** What can happen to the logging state while the program runs: the class
    method is called, or some code asks [logging.getLogger] for a name. *)
Inductive LoggingCall :=
| CallLogger
| CallGetLogger (name : string).

Definition perform (g : Globals) (c : LoggingCall) : Globals :=
  match c with
  | CallLogger => snd (logger g)
  | CallGetLogger name => snd (getLogger name g)
  end.

(** The slot, when filled, holds the logger registered under the module's
    name. *)
Definition slot_is_registered (g : Globals) : Prop :=
  ∀ l, _logger g = Some l → loggerDict g !! __name__ = Some l.

(** The keys [trade_message_from_exchange] writes. *)
Definition trade_keys : list string :=
  ["trade_type"; "trade_id"; "update_id"; "price"; "amount"].

End WazirxOrderBook.

(* --------------------------------------------------------------------- *)
(* hummingbot/client/config/config_methods.py                            *)
(* --------------------------------------------------------------------- *)

Module ConfigMethods.
Import Py.

(** The module [hummingbot.client.settings] as [using_exchange] sees it:
    the attribute [required_exchanges] names a collection object, and the
    collection objects themselves are mutable and live in a store. *)
Record Settings := {
  required_exchanges : loc;
  collections : gmap loc (list string)
}.

(** The two lambda expressions of this file, each with the variables it
    closes over. *)
Inductive Callable :=
| LambdaFalse
| LambdaIn (exchange : string) (required_exchanges : loc).

(** Calling one of them with no argument, in the state of the moment. *)
Definition call (f : Callable) (s : Settings) : bool :=
  match f with
  | LambdaFalse => false
  | LambdaIn exchange cell => bool_decide (exchange ∈ collections s !!! cell)
  end.

(** The attributes of [ConfigVar] (module [config_var], not part of the
    sources) that are set here by keyword. *)
Record ConfigVar := {
  key : string;
  prompt : option string;
  required_if : Callable;
  type_str : string
}.

Definition new_fee_config_var (k : string) : ConfigVar :=
  {| key := k;
     prompt := None;
     required_if := LambdaFalse;
     type_str := "decimal" |}.

(** The import statement binds the local name to whatever object the module
    attribute names when [using_exchange] runs; the lambda keeps that
    binding. *)
Definition using_exchange (exchange : string) (s : Settings) : Callable :=
  LambdaIn exchange (required_exchanges s).

(** In-place changes of the collection reached through
    [settings.required_exchanges]. *)
Inductive Mutation :=
| Append (x : string)
| Extend (xs : list string)
| Remove (x : string)
| Clear.

Fixpoint remove_first (x : string) (l : list string) : list string :=
  match l with
  | [] => []
  | y :: l' => if bool_decide (y = x) then l' else y :: remove_first x l'
  end.

Definition mutate_list (m : Mutation) (l : list string) : list string :=
  match m with
  | Append x => l ++ [x]
  | Extend xs => l ++ xs
  | Remove x => remove_first x l
  | Clear => []
  end.

Definition mutate (s : Settings) (m : Mutation) : Settings :=
  {| required_exchanges := required_exchanges s;
     collections :=
       <[required_exchanges s :=
           mutate_list m (collections s !!! required_exchanges s)]>
       (collections s) |}.

(** Example state: the attribute names object 1, which holds one name;
    object 2 is another list. *)
Definition sample_settings : Settings :=
  {| required_exchanges := 1%positive;
     collections := <[1%positive := ["binance"]]> {[2%positive := ["wazirx"]]} |}.

(** [settings.required_exchanges = <another object>]: the attribute is
    bound anew, no collection changes. *)
Definition rebind (s : Settings) (new : loc) : Settings :=
  {| required_exchanges := new; collections := collections s |}.

(** The collection the module attribute names now. *)
Definition current_required_exchanges (s : Settings) : list string :=
  collections s !!! required_exchanges s.

End ConfigMethods.

(* --------------------------------------------------------------------- *)
(* The user-stream listener (BitmartAPIUserStreamDataSource)             *)
(* --------------------------------------------------------------------- *)

Module UserStream.

Inductive ConnectionState :=
| Disconnected | Connecting | Authenticating | Subscribing | Live | Closing.

Inductive Outcome := Cancelled | Stopped.

(** Why a connection is being closed; only a failure is followed by a
    retry. *)
Inductive CloseCause := ByFailure | ByStop | ByCancel.

(** Modelled from the spec: the state of the missing listener is the
    connection state of its session, refined by what the heartbeat and the
    retry policy have to remember. *)
Inductive Listener :=
| LIdle                         (* Disconnected, nothing requested yet *)
| LConnecting
| LAuthenticating
| LSubscribing
| LLive (probing : bool)        (* [probing]: a ping awaits its pong *)
| LClosing (cause : CloseCause)
| LBackoff                      (* Disconnected, waiting to retry *)
| LEnded (o : Outcome).         (* Disconnected for good *)

Definition connection_state (l : Listener) : ConnectionState :=
  match l with
  | LIdle | LBackoff | LEnded _ => Disconnected
  | LConnecting => Connecting
  | LAuthenticating => Authenticating
  | LSubscribing => Subscribing
  | LLive _ => Live
  | LClosing _ => Closing
  end.

Inductive Frame :=
| Decoded (payload : string)
| Malformed (raw : string)
| ErrorObject (message : string).

(** What can wake the listener up at a suspension point. *)
Inductive Event :=
| OpenRequest
| TransportUp
| ConnectFailed
| AuthAccepted
| AuthRejected (message : string)
| AuthTimeout
| SubscribeAcked
| SubscribeTimeout
| TransportError
| Inbound (f : Frame)
| MessageTimeout
| Pong
| PingTimeout
| CloseDone (ok : bool)
| BackoffElapsed
| Stop
| Cancel.

Inductive Level := INFO | WARNING | ERROR | NETWORK.

(** What the listener does in reaction. *)
Inductive Action :=
| OpenTransport
| SendAuth
| SendSubscribe
| SendPing
| CloseTransport
| Publish (payload : string)
| Log (level : Level) (message : string)
| Sleep (seconds : Z)
| Propagate (o : Outcome).

Record Config := {
  requires_auth : bool;
  backoff : Z
}.

(** Log texts, as the tests of the listener expect them. *)
Definition retry_notice : string :=
  "Unexpected error with BitMart WebSocket connection. Retrying after 30 seconds...".
Definition connect_error : string :=
  "Unexpected error occured with BitMart WebSocket Connection".
Definition auth_start : string := "Authenticating to User Stream...".
Definition auth_done : string := "Successfully authenticated to User Stream.".
Definition auth_error : string :=
  "Error occurred when authenticating to user stream.".
Definition login_error (message : string) : string :=
  "WebSocket login errored with message: " +:+ message.
Definition subscribe_done : string :=
  "Successfully subscribed to all Private channels.".
Definition subscribe_error : string :=
  "Error occured during subscribing to Bitmart private channels.".
Definition parse_error : string :=
  "Unexpected error when parsing BitMart user_stream message. ".
Definition ping_timed_out : string :=
  "WebSocket ping timed out. Going to reconnect...".

(** Modelled from the spec: the ordinary failure path of an open
    connection, which is not part of the sources: announce the retry and tear
    the connection down (reconnect follows the close, after the backoff). *)
Definition fail_and_close (logs : list Action) : Listener * list Action :=
  (LClosing ByFailure, logs ++ [Log ERROR retry_notice; CloseTransport]).

(** Modelled from the spec: cancellation and explicit stop, which the
    missing listener observes at any suspension point.  A cancelled or stopped
    session closes its connection, if it has one, and is not retried;
    cancellation is handed to the caller as an outcome of its own. *)
Definition interrupt (o : Outcome) (l : Listener) : Listener * list Action :=
  let cause := match o with Cancelled => ByCancel | Stopped => ByStop end in
  let tell := match o with Cancelled => [Propagate Cancelled] | Stopped => [] end in
  match l with
  | LIdle | LConnecting | LBackoff => (LEnded o, tell)
  | LAuthenticating | LSubscribing | LLive _ =>
      (LClosing cause, tell ++ [CloseTransport])
  | LClosing ByFailure => (LClosing cause, tell)
  | LClosing c => (LClosing c, [])
  | LEnded o' => (LEnded o', [])
  end.

(** Modelled from the spec: [listen_for_user_stream] and the session it
    drives are not part of the sources, only their tests are.  One step of
    the listener follows the connection state machine (open, authenticate,
    subscribe, read with the two-tier heartbeat, close), the retry policy
    with its fixed backoff, and cancellation as a distinct outcome.  An
    undecodable frame is logged and skipped, the connection stays as it is;
    an explicit error object of the exchange is fatal to the connection. *)
Definition step (cfg : Config) (l : Listener) (e : Event)
  : Listener * list Action :=
  match e with
  | Cancel => interrupt Cancelled l
  | Stop => interrupt Stopped l
  | _ =>
    match l with
    | LIdle =>
        match e with
        | OpenRequest => (LConnecting, [OpenTransport])
        | _ => (l, [])
        end
    | LConnecting =>
        match e with
        | TransportUp =>
            if requires_auth cfg
            then (LAuthenticating, [Log INFO auth_start; SendAuth])
            else (LSubscribing, [SendSubscribe])
        | ConnectFailed | TransportError =>
            (LBackoff, [Log NETWORK connect_error; Log ERROR retry_notice;
                        Sleep (backoff cfg)])
        | _ => (l, [])
        end
    | LAuthenticating =>
        match e with
        | AuthAccepted => (LSubscribing, [Log INFO auth_done; SendSubscribe])
        | AuthRejected message =>
            fail_and_close [Log ERROR (login_error message); Log ERROR auth_error]
        | AuthTimeout | TransportError => fail_and_close [Log ERROR auth_error]
        | _ => (l, [])
        end
    | LSubscribing =>
        match e with
        | SubscribeAcked => (LLive false, [Log INFO subscribe_done])
        | SubscribeTimeout | TransportError =>
            fail_and_close [Log ERROR subscribe_error]
        | _ => (l, [])
        end
    | LLive probing =>
        match e with
        | Inbound (Decoded payload) => (LLive probing, [Publish payload])
        | Inbound (Malformed _) => (LLive probing, [Log ERROR parse_error])
        | Inbound (ErrorObject _) => fail_and_close []
        | MessageTimeout =>
            if probing then (l, []) else (LLive true, [SendPing])
        | Pong => (LLive false, [])
        | PingTimeout =>
            if probing
            then (LClosing ByFailure,
                  [Log WARNING ping_timed_out; CloseTransport])
            else (l, [])
        | TransportError => fail_and_close []
        | _ => (l, [])
        end
    | LClosing cause =>
        match e with
        | CloseDone _ =>
            match cause with
            | ByFailure => (LBackoff, [Sleep (backoff cfg)])
            | ByStop => (LEnded Stopped, [])
            | ByCancel => (LEnded Cancelled, [])
            end
        | _ => (l, [])
        end
    | LBackoff =>
        match e with
        | BackoffElapsed => (LConnecting, [OpenTransport])
        | _ => (l, [])
        end
    | LEnded _ => (l, [])
    end
  end.

(** The listener over a whole sequence of events: final state and
    everything it did, in order. *)
Fixpoint run (cfg : Config) (l : Listener) (es : list Event)
  : Listener * list Action :=
  match es with
  | [] => (l, [])
  | e :: es' =>
      let '(l1, a1) := step cfg l e in
      let '(l2, a2) := run cfg l1 es' in
      (l2, a1 ++ a2)
  end.

(** What was done on the current connection, i.e. before the transport is
    opened again. *)
Fixpoint before_reopen (acts : list Action) : list Action :=
  match acts with
  | [] => []
  | OpenTransport :: _ => []
  | a :: acts' => a :: before_reopen acts'
  end.

(** Events under which every ping of a live connection is answered: idle
    periods, pongs and well-formed traffic. *)
Definition quiet (e : Event) : bool :=
  match e with
  | MessageTimeout | Pong | Inbound (Decoded _) => true
  | _ => false
  end.


(** States in which no connection is being set up or read: closing,
    waiting for the backoff, or ended. *)
Definition winding_down (l : Listener) : bool :=
  match l with
  | LClosing _ | LBackoff | LEnded _ => true
  | _ => false
  end.

(** States a cancellation leads to. *)
Definition cancelled (l : Listener) : bool :=
  match l with
  | LClosing ByCancel | LEnded Cancelled => true
  | _ => false
  end.

(** Suspension points at which the listener still runs and nobody has
    asked it to end. *)
Definition running (l : Listener) : bool :=
  match l with
  | LEnded _ | LClosing ByStop | LClosing ByCancel => false
  | _ => true
  end.

(** The user stream of the tests: authenticated, 30 seconds of backoff. *)
Definition bitmart : Config := {| requires_auth := true; backoff := 30 |}.

(** Events up to the point where the login has succeeded and the private
    channels are subscribed. *)
Definition logged_in : list Event :=
  [OpenRequest; TransportUp; AuthAccepted; SubscribeAcked].

End UserStream.

(* --------------------------------------------------------------------- *)
(* test/.../bitmart/test_bitmart_api_user_stream_data_source.py          *)
(* --------------------------------------------------------------------- *)

Module UserStreamTests.

(** What [_is_logged] reads of a [logging.LogRecord]. *)
Record LogRecord := {
  levelname : string;
  getMessage : string
}.

(** The test case is its own log handler: [handle] appends to
    [self.log_records], which [setUp] resets to the empty list. *)
Definition setUp : list LogRecord := [].

Definition handle (log_records : list LogRecord) (record : LogRecord)
  : list LogRecord :=
  log_records ++ [record].

Definition _is_logged (log_records : list LogRecord)
    (log_level message : string) : bool :=
  existsb (fun record =>
             bool_decide (levelname record = log_level)
             && bool_decide (getMessage record = message))
          log_records.

End UserStreamTests.

(* ===================================================================== *)
(* Properties                                                            *)
(* ===================================================================== *)

Section WazirxOrderBookProperties.
Import Py WazirxOrderBook.

Variable EXCHANGE_NAME : string.
Variables SELL BUY : Z.

Lemma merge_metadata_run (msg : loc) (metadata : option loc) (h : heap) :
  merge_metadata msg metadata h = (Ret tt, after_merge h msg metadata).
Proof.
  unfold merge_metadata, after_merge, bind, truthy, deref, dict_update, ret.
  destruct metadata as [md|]; simpl; [|done].
  by destruct (bool_decide (h !!! md = ∅)).
Qed.

(** After the merge [msg] holds its entries merged with the metadata's. *)
Lemma after_merge_msg (h : heap) (msg : loc) (metadata : option loc) :
  after_merge h msg metadata !!! msg = merged h msg metadata.
Proof.
  unfold after_merge, merged. destruct metadata as [md|]; [|done].
  destruct (bool_decide (h !!! md = ∅)) eqn:E.
  - apply bool_decide_eq_true in E. by rewrite E, (left_id_L ∅ (∪)).
  - by rewrite lookup_total_insert_eq.
Qed.

(** The merge writes no object but [msg]. *)
Lemma after_merge_frame (h : heap) (msg : loc) (metadata : option loc) (l : loc) :
  l ≠ msg → after_merge h msg metadata !! l = h !! l.
Proof.
  intros Hl. unfold after_merge. destruct metadata as [md|]; [|done].
  destruct (bool_decide (h !!! md = ∅)); [done|].
  by rewrite lookup_insert_ne.
Qed.

(** Falsy metadata leaves the store as it was. *)
Lemma after_merge_falsy (h : heap) (msg md : loc) :
  h !!! md = (∅ : gmap string value) → after_merge h msg (Some md) = h.
Proof. intros E. unfold after_merge. by rewrite bool_decide_eq_true_2. Qed.

(** [trade_fields] reads the store and never writes it. *)
Lemma trade_fields_run (msg : loc) (ts : option float) (h : heap) :
  trade_fields SELL BUY msg ts h
  = match (h !!! msg : gmap string value) !! "S" with
    | Some side => (Ret (trade_entries SELL BUY side ts (h !!! msg)), h)
    | None => (Raise (KeyError "S"), h)
    end.
Proof.
  unfold trade_fields, bind, dict_getitem, dict_get, ret, trade_entries.
  by destruct ((h !!! msg : gmap string value) !! "S").
Qed.

(** C1: for every snapshot message and every (snapshot, diffs) pair, and
    in every store, [from_snapshot] and [restore_from_snapshot_and_diffs]
    raise NotImplementedError with the message "<exchange name> order book
    needs to retain individual order data."; they leave the store alone and
    never return an order book. *)
Theorem order_book_construction_not_supported
    (snapshot : WazirxOrderBookMessage) (diffs : list WazirxOrderBookMessage)
    (h : heap) :
  let unsupported : result OrderBook :=
    Raise (NotImplementedError
             (EXCHANGE_NAME +:+ " order book needs to retain individual order data.")) in
  from_snapshot EXCHANGE_NAME snapshot h = (unsupported, h)
  ∧ restore_from_snapshot_and_diffs EXCHANGE_NAME snapshot diffs h = (unsupported, h)
  ∧ (∀ book, fst (from_snapshot EXCHANGE_NAME snapshot h) ≠ Ret book)
  ∧ (∀ book,
       fst (restore_from_snapshot_and_diffs EXCHANGE_NAME snapshot diffs h)
       ≠ Ret book).
Proof.
  unfold from_snapshot, restore_from_snapshot_and_diffs, raise, not_supported.
  simpl. repeat split; discriminate.
Qed.

Lemma snapshot_message_run (msg : loc) (ts : float) (metadata : option loc)
    (h : heap) :
  snapshot_message_from_exchange msg ts metadata h
  = (Ret {| message_type := SNAPSHOT; content := msg; timestamp := Some ts |},
     after_merge h msg metadata).
Proof.
  unfold snapshot_message_from_exchange, bind.
  by rewrite merge_metadata_run.
Qed.

Lemma diff_message_run (msg : loc) (ots : option float) (metadata : option loc)
    (h : heap) :
  diff_message_from_exchange msg ots metadata h
  = (Ret {| message_type := DIFF; content := msg; timestamp := ots |},
     after_merge h msg metadata).
Proof.
  unfold diff_message_from_exchange, bind.
  by rewrite merge_metadata_run.
Qed.

Lemma trade_message_run (msg : loc) (ots : option float) (metadata : option loc)
    (h : heap) :
  trade_message_from_exchange SELL BUY msg ots metadata h
  = match merged h msg metadata !! "S" with
    | Some side =>
        (Ret {| message_type := TRADE; content := msg; timestamp := ots |},
         <[msg := trade_entries SELL BUY side ots (merged h msg metadata)
                  ∪ merged h msg metadata]>
         (after_merge h msg metadata))
    | None => (Raise (KeyError "S"), after_merge h msg metadata)
    end.
Proof.
  unfold trade_message_from_exchange, bind, dict_update, ret.
  rewrite merge_metadata_run, trade_fields_run, after_merge_msg.
  destruct (merged h msg metadata !! "S"); [|done].
  by rewrite after_merge_msg.
Qed.

(** C3, as the code has it: the translation functions write into the
    caller's [msg] and into no other object.  After
    [snapshot_message_from_exchange] and [diff_message_from_exchange], [msg]
    holds its old entries merged with those of the metadata, so the store is
    untouched when the metadata is None or empty; after
    [trade_message_from_exchange] it holds in addition the five trade
    entries, provided the merged dict has a side "S" (otherwise only the
    metadata has been merged). *)
Theorem translation_updates_msg_in_place
    (msg : loc) (ts : float) (ots : option float) (metadata : option loc)
    (h : heap) :
  let snap := snd (snapshot_message_from_exchange msg ts metadata h) in
  let diff := snd (diff_message_from_exchange msg ots metadata h) in
  let trade := snd (trade_message_from_exchange SELL BUY msg ots metadata h) in
  let d := merged h msg metadata in
  (∀ l, l ≠ msg → snap !! l = h !! l ∧ diff !! l = h !! l ∧ trade !! l = h !! l)
  ∧ snap !!! msg = d
  ∧ diff !!! msg = d
  ∧ trade !!! msg
    = match d !! "S" with
      | Some side => trade_entries SELL BUY side ots d ∪ d
      | None => d
      end
  ∧ (metadata = None → snap = h ∧ diff = h)
  ∧ (∀ md, metadata = Some md → h !!! md = (∅ : gmap string value) →
       snap = h ∧ diff = h).
Proof.
  cbn zeta.
  rewrite snapshot_message_run, diff_message_run, trade_message_run. simpl.
  split; [|split; [|split; [|split; [|split]]]].
  - intros l Hl. rewrite after_merge_frame by done. split; [done|]. split; [done|].
    destruct (merged h msg metadata !! "S"); simpl.
    + rewrite lookup_insert_ne by done. by apply after_merge_frame.
    + by apply after_merge_frame.
  - apply after_merge_msg.
  - apply after_merge_msg.
  - destruct (merged h msg metadata !! "S"); simpl.
    + by rewrite lookup_total_insert_eq.
    + apply after_merge_msg.
  - by intros ->.
  - intros md -> E. by rewrite after_merge_falsy.
Qed.

(** C7, as the code has it: [snapshot_message_from_exchange] returns a
    message tagged SNAPSHOT and [diff_message_from_exchange] one tagged
    DIFF, for every msg, timestamp and metadata; [trade_message_from_exchange]
    returns one tagged TRADE whenever msg merged with the metadata has the
    key "S", and raises KeyError "S" otherwise.  Every returned message has
    the timestamp argument as timestamp and [msg] itself as content, which
    then reads as msg merged with the metadata (and, for a trade, with the
    five trade entries on top). *)
Theorem message_constructors_tag_and_carry
    (msg : loc) (ts : float) (ots : option float) (metadata : option loc)
    (h : heap) :
  let d := merged h msg metadata in
  (∃ m h', snapshot_message_from_exchange msg ts metadata h = (Ret m, h')
           ∧ message_type m = SNAPSHOT ∧ timestamp m = Some ts
           ∧ content m = msg ∧ payload m h' = d)
  ∧ (∃ m h', diff_message_from_exchange msg ots metadata h = (Ret m, h')
             ∧ message_type m = DIFF ∧ timestamp m = ots
             ∧ content m = msg ∧ payload m h' = d)
  ∧ (∀ side, d !! "S" = Some side →
       ∃ m h', trade_message_from_exchange SELL BUY msg ots metadata h = (Ret m, h')
               ∧ message_type m = TRADE ∧ timestamp m = ots
               ∧ content m = msg
               ∧ payload m h' = trade_entries SELL BUY side ots d ∪ d)
  ∧ (d !! "S" = None →
       fst (trade_message_from_exchange SELL BUY msg ots metadata h)
       = Raise (KeyError "S")).
Proof.
  cbn zeta.
  rewrite snapshot_message_run, diff_message_run, trade_message_run.
  split; [|split; [|split]].
  - eexists _, _. split; [reflexivity|]. simpl. unfold payload; simpl.
    by rewrite after_merge_msg.
  - eexists _, _. split; [reflexivity|]. simpl. unfold payload; simpl.
    by rewrite after_merge_msg.
  - intros side ->. eexists _, _. split; [reflexivity|]. simpl.
    unfold payload; simpl. by rewrite lookup_total_insert_eq.
  - by intros ->.
Qed.

End WazirxOrderBookProperties.

Section WazirxOrderBookExamples.
Import Py WazirxOrderBook.

(** C3 fails as stated: with a non-empty metadata dict the snapshot and
    the diff constructor write its entries into the caller's [msg], and the
    trade constructor writes into [msg] even without metadata. *)
Lemma translation_writes_into_msg :
  snd (snapshot_message_from_exchange 1 (float_of_int 5) (Some 2%positive)
         sample_store) !!! 1%positive
  ≠ (sample_store !!! 1%positive : gmap string value)
  ∧ snd (diff_message_from_exchange 1 None (Some 2%positive)
           sample_store) !!! 1%positive
    ≠ (sample_store !!! 1%positive : gmap string value)
  ∧ snd (trade_message_from_exchange 2 1 1 None None
           sample_store) !!! 1%positive
    ≠ (sample_store !!! 1%positive : gmap string value).
Proof.
  repeat split; intros E.
  - apply (f_equal (λ d : gmap string value, d !! "trading_pair")) in E.
    vm_compute in E. discriminate.
  - apply (f_equal (λ d : gmap string value, d !! "trading_pair")) in E.
    vm_compute in E. discriminate.
  - apply (f_equal (λ d : gmap string value, d !! "trade_type")) in E.
    vm_compute in E. discriminate.
Qed.

Lemma translation_updates_msg_in_place_witness :
  (snd (trade_message_from_exchange 2 1 1 None (Some 2%positive) sample_store)
     !! 2%positive = sample_store !! 2%positive)
  ∧ snd (snapshot_message_from_exchange 1 (float_of_int 5) None sample_store)
    = sample_store
  ∧ snd (diff_message_from_exchange 1 None (Some 3%positive) sample_store)
    = sample_store.
Proof.
  split; [|split].
  - apply (translation_updates_msg_in_place 2 1 1 (float_of_int 5)
             None (Some 2%positive) sample_store).
    discriminate.
  - apply (translation_updates_msg_in_place 2 1 1 (float_of_int 5)
             None None sample_store).
    reflexivity.
  - pose proof (translation_updates_msg_in_place 2 1 1 (float_of_int 5)
                  None (Some 3%positive) sample_store) as H.
    cbn zeta in H. destruct H as (_ & _ & _ & _ & _ & H).
    apply (H 3%positive).
    + reflexivity.
    + vm_compute. reflexivity.
Defined.

(** C7 fails as stated: on a dict without the key "S" the trade
    constructor raises KeyError and returns no message. *)
Lemma trade_message_needs_side :
  trade_message_from_exchange 2 1 2 None None sample_store
  = (Raise (KeyError "S"), sample_store)
  ∧ ¬ (∃ m h', trade_message_from_exchange 2 1 2 None None sample_store
               = (Ret m, h') ∧ message_type m = TRADE).
Proof.
  assert (E : trade_message_from_exchange 2 1 2 None None sample_store
              = (Raise (KeyError "S"), sample_store)) by (vm_compute; reflexivity).
  split; [exact E|]. intros (m & h' & E' & _). rewrite E in E'. discriminate.
Qed.

Lemma message_constructors_tag_and_carry_witness :
  (∃ m h', trade_message_from_exchange 2 1 1 (Some (float_of_int 5))
             (Some 2%positive) sample_store = (Ret m, h')
           ∧ message_type m = TRADE ∧ timestamp m = Some (float_of_int 5)
           ∧ content m = 1%positive
           ∧ payload m h' !! "trading_pair" = Some (VStr "btcinr"))
  ∧ fst (trade_message_from_exchange 2 1 2 None None sample_store)
    = Raise (KeyError "S").
Proof.
  split.
  - destruct (message_constructors_tag_and_carry 2 1 1 (float_of_int 5)
                (Some (float_of_int 5)) (Some 2%positive) sample_store)
      as (_ & _ & Htrade & _).
    destruct (Htrade (VStr "sell")) as (m & h' & E & Htag & Hts & Hc & Hp).
    { vm_compute. reflexivity. }
    exists m, h'. rewrite Hp. repeat split; try assumption.
  - apply (message_constructors_tag_and_carry 2 1 2 (float_of_int 5)
             None None sample_store).
    vm_compute. reflexivity.
Defined.

End WazirxOrderBookExamples.

Section LoggerProperties.
Import Py WazirxOrderBook.

(** Once the slot is filled, [logger] returns its content and changes
    nothing. *)
Lemma logger_filled (g : Globals) (l : loc) :
  _logger g = Some l → logger g = (l, g).
Proof. intros E. unfold logger. by rewrite E. Qed.

(** [logger] always leaves the slot filled with what it returns. *)
Lemma logger_fills (g : Globals) :
  _logger (snd (logger g)) = Some (fst (logger g)).
Proof.
  unfold logger. destruct (_logger g) as [l|] eqn:E; [done|].
  by destruct (getLogger __name__ g).
Qed.

Lemma logger_calls_filled (n : nat) (g : Globals) (l : loc) :
  _logger g = Some l → logger_calls n g = (replicate n l, g).
Proof.
  intros E. induction n as [|n IH]; [done|].
  simpl. by rewrite (logger_filled g l E), IH.
Qed.

(** C8: the first call of [logger] stores a logger in the module-level
    slot (the one [logging.getLogger] gives for the module's name when the
    slot was empty) and every later call returns that same object and
    leaves all state as it is: calling [logger] twice is calling it once. *)
Theorem logger_is_idempotent_singleton (g : Globals) (n : nat) :
  let first := fst (logger g) in
  let g1 := snd (logger g) in
  logger g1 = (first, g1)
  ∧ logger_calls n g1 = (replicate n first, g1)
  ∧ _logger g1 = Some first
  ∧ (_logger g = None →
     first = fst (getLogger __name__ g)
     ∧ loggerDict g1 = loggerDict (snd (getLogger __name__ g)))
  ∧ (∀ l, _logger g = Some l → first = l ∧ g1 = g).
Proof.
  cbn zeta. pose proof (logger_fills g) as Hfill.
  split; [by apply logger_filled|].
  split; [by apply logger_calls_filled|].
  split; [done|].
  split.
  - intros E. unfold logger. rewrite E.
    by destruct (getLogger __name__ g).
  - intros l E. by rewrite (logger_filled g l E).
Qed.

End LoggerProperties.

Section LoggerExamples.
Import Py WazirxOrderBook.

Lemma logger_is_idempotent_singleton_witness :
  let fresh := {| _logger := None; loggerDict := ∅; next_id := 7 |} in
  fst (logger fresh) = 7%positive
  ∧ fst (logger (snd (logger fresh))) = 7%positive
  ∧ snd (logger (snd (logger fresh))) = snd (logger fresh).
Proof.
  cbn zeta.
  pose proof (logger_is_idempotent_singleton
                {| _logger := None; loggerDict := ∅; next_id := 7 |} 2) as H.
  cbn zeta in H. destruct H as (Htwice & _ & _ & Hfirst & _).
  destruct Hfirst as [Hl _]; [reflexivity|].
  rewrite Htwice. split; [exact Hl|]. split; [exact Hl|reflexivity].
Defined.

End LoggerExamples.

Section ConfigMethodsProperties.
Import Py ConfigMethods.

(** C9: whatever the key, the ConfigVar made by [new_fee_config_var] has a
    [required_if] that answers False whenever it is called, no prompt, and
    the type string "decimal". *)
Theorem fee_config_var_never_required (k : string) (s : Settings) :
  call (required_if (new_fee_config_var k)) s = false
  ∧ prompt (new_fee_config_var k) = None
  ∧ type_str (new_fee_config_var k) = "decimal"
  ∧ key (new_fee_config_var k) = k.
Proof. by repeat split. Qed.

(** In-place changes never rebind the module attribute. *)
Lemma mutations_keep_binding (ms : list Mutation) (s : Settings) :
  required_exchanges (foldl mutate s ms) = required_exchanges s.
Proof.
  revert s. induction ms as [|m ms IH]; intros s; [done|].
  simpl. by rewrite IH.
Qed.

(** C10: the callable returned by [using_exchange] looks the exchange up
    when it is called: in whatever state the required_exchanges collection
    is at that moment, it answers True exactly when the exchange is then a
    member.  In particular, after any sequence of in-place changes made to
    the collection since the callable was created, the answer is membership
    in the changed collection. *)
Theorem using_exchange_reads_at_call_time
    (exchange : string) (created : Settings) :
  let f := using_exchange exchange created in
  (∀ now, required_exchanges now = required_exchanges created →
     (call f now = true ↔ exchange ∈ current_required_exchanges now))
  ∧ (∀ ms,
       call f (foldl mutate created ms)
       = bool_decide (exchange ∈ current_required_exchanges (foldl mutate created ms))).
Proof.
  cbn zeta. unfold using_exchange, call, current_required_exchanges. split.
  - intros now ->. apply bool_decide_eq_true.
  - intros ms. by rewrite mutations_keep_binding.
Qed.

End ConfigMethodsProperties.

Section ConfigMethodsExamples.
Import Py ConfigMethods.

Lemma using_exchange_reads_at_call_time_witness :
  let f := using_exchange "wazirx" sample_settings in
  call f sample_settings = false
  ∧ call f (mutate sample_settings (Append "wazirx")) = true
  ∧ call f (mutate (mutate sample_settings (Append "wazirx")) Clear) = false.
Proof.
  cbn zeta.
  pose proof (using_exchange_reads_at_call_time "wazirx" sample_settings) as H.
  cbn zeta in H. destruct H as [Hnow Hms].
  split; [|split].
  - apply (Hms []).
  - apply (Hnow (mutate sample_settings (Append "wazirx"))).
    + reflexivity.
    + vm_compute. apply list_elem_of_In. simpl. auto.
  - apply (Hms [Append "wazirx"; Clear]).
Defined.

End ConfigMethodsExamples.

(** Membership of an action in an explicit list of actions. *)
Ltac in_actions :=
  repeat first [ apply list_elem_of_here | apply list_elem_of_further ].

Ltac not_in_actions :=
  repeat (apply not_elem_of_cons; split; [discriminate|]);
  apply not_elem_of_nil.

Section UserStreamProperties.
Import UserStream.

Variable cfg : Config.

Lemma run_cons (l : Listener) (e : Event) (es : list Event) :
  run cfg l (e :: es)
  = (fst (run cfg (fst (step cfg l e)) es),
     snd (step cfg l e) ++ snd (run cfg (fst (step cfg l e)) es)).
Proof.
  simpl. destruct (step cfg l e) as [l1 a1]. simpl.
  by destruct (run cfg l1 es).
Qed.

(** While every ping is answered a live connection stays live, and all
    the listener does is ping and publish. *)
Lemma quiet_stays_live (es : list Event) (probing : bool) :
  forallb quiet es = true →
  ∃ q, fst (run cfg (LLive probing) es) = LLive q
       ∧ Forall (λ a, a = SendPing ∨ ∃ x, a = Publish x)
                (snd (run cfg (LLive probing) es)).
Proof.
  revert probing. induction es as [|e es IH]; intros probing Hq.
  - exists probing. by split.
  - simpl in Hq. apply andb_true_iff in Hq as [He Hes].
    rewrite run_cons.
    destruct e as [| | | | | | | | |[x| |]| | | | | | |]; try discriminate He;
      [|destruct probing|]; simpl;
      edestruct IH as (q & Hq1 & Hq2); try exact Hes; exists q;
      (split; [exact Hq1|]); eauto.
Qed.

(** From a state that is winding down, nothing is subscribed before the
    transport is opened again. *)
Lemma winding_down_no_subscribe (es : list Event) (l : Listener) :
  winding_down l = true →
  SendSubscribe ∉ before_reopen (snd (run cfg l es)).
Proof.
  revert l. induction es as [|e es IH]; intros l Hl.
  - simpl. apply not_elem_of_nil.
  - rewrite run_cons.
    destruct l as [| | | |p|c| |o]; try discriminate Hl.
    + destruct c, e; simpl; try (apply IH; reflexivity);
        (apply not_elem_of_cons; split; [discriminate|apply IH; reflexivity]).
    + destruct e; simpl; try (apply IH; reflexivity);
        try apply not_elem_of_nil;
        (apply not_elem_of_cons; split; [discriminate|apply IH; reflexivity]).
    + destruct e; simpl; apply IH; reflexivity.
Qed.

(** After a cancellation the listener does nothing more and stays
    cancelled. *)
Lemma cancelled_is_final (es : list Event) (l : Listener) :
  cancelled l = true →
  cancelled (fst (run cfg l es)) = true ∧ snd (run cfg l es) = [].
Proof.
  revert l. induction es as [|e es IH]; intros l Hl; [done|].
  rewrite run_cons.
  destruct l as [| | | |p|[]| |[]]; try discriminate Hl;
    destruct e; simpl; apply IH; reflexivity.
Qed.




(** C4: on a live connection a message timeout sends a ping and closes
    nothing; a ping that is not answered within the ping timeout closes the
    connection, logs the ping timeout and leads to a new connection after
    the backoff; and as long as every ping is answered (only idle periods,
    pongs and well-formed traffic occur) the connection stays live and is
    never closed. *)
Theorem two_tier_heartbeat (probing ok : bool) (es : list Event) :
  step cfg (LLive false) MessageTimeout = (LLive true, [SendPing])
  ∧ step cfg (LLive true) Pong = (LLive false, [])
  ∧ step cfg (LLive true) PingTimeout
    = (LClosing ByFailure, [Log WARNING ping_timed_out; CloseTransport])
  ∧ run cfg (LLive false)
      [MessageTimeout; PingTimeout; CloseDone ok; BackoffElapsed]
    = (LConnecting,
       [SendPing; Log WARNING ping_timed_out; CloseTransport;
        Sleep (backoff cfg); OpenTransport])
  ∧ (forallb quiet es = true →
     connection_state (fst (run cfg (LLive probing) es)) = Live
     ∧ CloseTransport ∉ snd (run cfg (LLive probing) es)).
Proof.
  repeat split.
  - destruct (quiet_stays_live es probing H) as (q & -> & _). done.
  - destruct (quiet_stays_live es probing H) as (q & _ & Hacts).
    intros Hin. rewrite Forall_forall in Hacts.
    destruct (Hacts _ Hin) as [?|[x ?]]; discriminate.
Qed.

(** C5: when the exchange rejects the login, the listener logs the login
    error and the authentication error, announces the retry and closes the
    connection; it sends no subscribe request on that connection, whatever
    happens next, and after the close and the backoff it starts again by
    opening the transport. *)
Theorem rejected_login_never_subscribes
    (message : string) (ok : bool) (es : list Event) :
  step cfg LAuthenticating (AuthRejected message)
  = (LClosing ByFailure,
     [Log ERROR (login_error message); Log ERROR auth_error;
      Log ERROR retry_notice; CloseTransport])
  ∧ (SendSubscribe
     ∉ before_reopen (snd (run cfg LAuthenticating (AuthRejected message :: es))))
  ∧ run cfg LAuthenticating
      [AuthRejected message; CloseDone ok; BackoffElapsed]
    = (LConnecting,
       [Log ERROR (login_error message); Log ERROR auth_error;
        Log ERROR retry_notice; CloseTransport;
        Sleep (backoff cfg); OpenTransport]).
Proof.
  split; [done|]. split; [|done].
  rewrite run_cons. simpl.
  repeat (apply not_elem_of_cons; split; [discriminate|]).
  by apply winding_down_no_subscribe.
Qed.

(** C6: at every suspension point where the listener is running, and so
    while the connection is opened, while it authenticates and while it
    subscribes, a cancellation is handed to the caller as the outcome
    Cancelled; the retry notice is not logged, no backoff is started, and
    whatever happens afterwards the listener does nothing more: it never
    opens a transport again.  An ordinary failure at the same points
    announces a retry instead. *)
Theorem cancellation_propagates_without_retry (l : Listener) (es : list Event) :
  (running l = true →
   Propagate Cancelled ∈ snd (step cfg l Cancel)
   ∧ cancelled (fst (step cfg l Cancel)) = true
   ∧ (Log ERROR retry_notice ∉ snd (step cfg l Cancel))
   ∧ (Sleep (backoff cfg) ∉ snd (step cfg l Cancel))
   ∧ snd (run cfg l (Cancel :: es)) = snd (step cfg l Cancel)
   ∧ (OpenTransport ∉ snd (run cfg l (Cancel :: es)))
   ∧ cancelled (fst (run cfg l (Cancel :: es))) = true)
  ∧ running LConnecting = true
  ∧ running LAuthenticating = true
  ∧ running LSubscribing = true
  ∧ Log ERROR retry_notice ∈ snd (step cfg LConnecting TransportError)
  ∧ Log ERROR retry_notice ∈ snd (step cfg LAuthenticating TransportError)
  ∧ Log ERROR retry_notice ∈ snd (step cfg LSubscribing TransportError).
Proof.
  split; [|repeat split; simpl; in_actions].
  intros Hl.
  assert (Hc : cancelled (fst (step cfg l Cancel)) = true)
    by (by destruct l as [| | | |p|[]| |o]).
  destruct (cancelled_is_final es _ Hc) as [Hfin Hnil].
  rewrite run_cons, Hnil, app_nil_r. simpl fst.
  repeat split; try done;
    destruct l as [| | | |p|[]| |o]; try discriminate Hl; simpl;
    lazymatch goal with
    | |- ¬ _ => not_in_actions
    | |- _ => in_actions
    end.
Qed.

End UserStreamProperties.

Section UserStreamExamples.
Import UserStream.

(** The scenario of the test that authenticates, subscribes and reads one
    message: three INFO records, two requests sent, one message
    published. *)
Example login_then_one_message :
  run bitmart LIdle (logged_in ++ [Inbound (Decoded "dummyMessage")])
  = (LLive false,
     [OpenTransport; Log INFO auth_start; SendAuth;
      Log INFO auth_done; SendSubscribe; Log INFO subscribe_done;
      Publish "dummyMessage"]).
Proof. reflexivity. Qed.


Lemma two_tier_heartbeat_witness :
  let idle_but_fine :=
    [MessageTimeout; Pong; Inbound (Decoded "dummyMessage");
     MessageTimeout; MessageTimeout; Pong] in
  forallb quiet idle_but_fine = true
  ∧ connection_state (fst (run bitmart (LLive false) idle_but_fine)) = Live
  ∧ (CloseTransport ∉ snd (run bitmart (LLive false) idle_but_fine)).
Proof.
  cbn zeta. split; [reflexivity|].
  apply (two_tier_heartbeat bitmart false true). reflexivity.
Defined.

Lemma cancellation_propagates_without_retry_witness :
  running LAuthenticating = true
  ∧ snd (run bitmart LAuthenticating [Cancel; CloseDone true; BackoffElapsed])
    = [Propagate Cancelled; CloseTransport]
  ∧ cancelled
      (fst (run bitmart LAuthenticating [Cancel; CloseDone true; BackoffElapsed]))
    = true.
Proof.
  split; [reflexivity|].
  pose proof (cancellation_propagates_without_retry bitmart LAuthenticating
                [CloseDone true; BackoffElapsed]) as [H _].
  destruct H as (_ & _ & _ & _ & Hacts & _ & Hfin); [reflexivity|].
  split; [exact Hacts|exact Hfin].
Defined.

End UserStreamExamples.

(* ===================================================================== *)
(* Further properties of the order-book message constructors             *)
(* ===================================================================== *)

Section WazirxOrderBookFurther.
Import Py WazirxOrderBook.

Variables SELL BUY : Z.

Lemma eq_str_spec (v : value) (s : string) : eq_str v s = true ↔ v = VStr s.
Proof.
  destruct v; simpl; try (split; [discriminate|congruence]).
  rewrite bool_decide_eq_true. split; [by intros ->|congruence].
Qed.

(** A second merge of the same metadata changes nothing. *)
Lemma after_merge_idem (h : heap) (msg : loc) (metadata : option loc) :
  after_merge (after_merge h msg metadata) msg metadata
  = after_merge h msg metadata.
Proof.
  unfold after_merge. destruct metadata as [md|]; [|done].
  destruct (bool_decide (h !!! md = ∅)) eqn:E; [by rewrite E|].
  apply bool_decide_eq_false in E.
  destruct (decide (md = msg)) as [->|Hne].
  - rewrite lookup_total_insert_eq, (idemp_L (∪)).
    rewrite bool_decide_eq_false_2 by done.
    by rewrite insert_insert_eq, (idemp_L (∪)).
  - rewrite lookup_total_insert_ne by done.
    rewrite bool_decide_eq_false_2 by done.
    rewrite lookup_total_insert_eq, insert_insert_eq.
    by rewrite (assoc_L (∪)), (idemp_L (∪)).
Qed.

(** What the merge leaves in [msg], key by key. *)
Lemma merged_lookup (h : heap) (msg md : loc) (k : string) :
  merged h msg (Some md) !! k
  = match (h !!! md : gmap string value) !! k with
    | Some v => Some v
    | None => (h !!! msg : gmap string value) !! k
    end.
Proof.
  unfold merged. rewrite lookup_union.
  by destruct ((h !!! md : gmap string value) !! k),
              ((h !!! msg : gmap string value) !! k).
Qed.

(** The five trade entries, key by key. *)
Lemma trade_entries_lookup (side : value) (ots : option float)
    (d : gmap string value) (k : string) :
  trade_entries SELL BUY side ots d !! k
  = if bool_decide (k = "amount") then Some (default VNone (d !! "q"))
    else if bool_decide (k = "price") then Some (default VNone (d !! "p"))
    else if bool_decide (k = "update_id") then Some (of_optional_float ots)
    else if bool_decide (k = "trade_id") then Some (default VNone (d !! "t"))
    else if bool_decide (k = "trade_type")
         then Some (VFloat (if eq_str side "sell"
                            then float_of_int SELL else float_of_int BUY))
    else None.
Proof.
  unfold trade_entries.
  repeat (case_bool_decide;
          [subst k; by rewrite ?lookup_insert_eq, ?lookup_singleton_eq
          |rewrite ?lookup_insert_ne by done]).
  by rewrite ?lookup_singleton_ne, ?lookup_empty.
Qed.

Lemma trade_entries_other (side : value) (ots : option float)
    (d : gmap string value) (k : string) :
  k ∉ trade_keys → trade_entries SELL BUY side ots d !! k = None.
Proof.
  unfold trade_keys. intros Hk. rewrite trade_entries_lookup.
  repeat (case_bool_decide; [subst k; exfalso; apply Hk; in_actions|]).
  done.
Qed.

(** X2: with no metadata, or with an empty one, the exchange constructors
    for snapshots and diffs do exactly what the database constructors do on
    a row made of the same dict and timestamp. *)
Theorem exchange_agrees_with_db_without_metadata
    (msg : loc) (ts : float) (ots : option float) (metadata : option loc)
    (h : heap) :
  (metadata = None
   ∨ ∃ md, metadata = Some md ∧ h !!! md = (∅ : gmap string value)) →
  snapshot_message_from_exchange msg ts metadata h
  = snapshot_message_from_db {| json := msg; row_timestamp := Some ts |} metadata h
  ∧ diff_message_from_exchange msg ots metadata h
    = diff_message_from_db {| json := msg; row_timestamp := ots |} metadata h.
Proof.
  intros Hmd. rewrite snapshot_message_run, diff_message_run.
  assert (after_merge h msg metadata = h) as ->; [|done].
  destruct Hmd as [->|(md & -> & E)]; [done|by apply after_merge_falsy].
Qed.

(** X3: the trade type written into a trade frame is the SELL value exactly
    when the side "S" (read after the metadata has been merged) is the
    string "sell"; any other side, whatever its case or type, gives BUY. *)
Theorem trade_type_follows_side
    (msg : loc) (ots : option float) (metadata : option loc) (h : heap)
    (side : value) :
  merged h msg metadata !! "S" = Some side →
  let written : gmap string value :=
    snd (trade_message_from_exchange SELL BUY msg ots metadata h) !!! msg in
  (side = VStr "sell" →
   written !! "trade_type" = Some (VFloat (float_of_int SELL)))
  ∧ (side ≠ VStr "sell" →
     written !! "trade_type" = Some (VFloat (float_of_int BUY))).
Proof.
  intros HS. cbn zeta. rewrite trade_message_run, HS. simpl.
  rewrite lookup_total_insert_eq, lookup_union, trade_entries_lookup. simpl.
  split.
  - intros ->. simpl.
    by destruct (merged h msg metadata !! "trade_type").
  - intros Hside.
    destruct (eq_str side "sell") eqn:E.
    + by apply eq_str_spec in E.
    + by destruct (merged h msg metadata !! "trade_type").
Qed.

(** X4: a trade frame gets "trade_id", "price" and "amount" from its keys
    "t", "p" and "q" (None when the key is missing) and "update_id" from the
    timestamp argument; entries already stored under these names are
    replaced, and every other entry of the merged frame is kept. *)
Theorem trade_fields_are_copied
    (msg : loc) (ots : option float) (metadata : option loc) (h : heap)
    (side : value) :
  merged h msg metadata !! "S" = Some side →
  let d := merged h msg metadata in
  let written : gmap string value :=
    snd (trade_message_from_exchange SELL BUY msg ots metadata h) !!! msg in
  written !! "trade_id" = Some (default VNone (d !! "t"))
  ∧ written !! "price" = Some (default VNone (d !! "p"))
  ∧ written !! "amount" = Some (default VNone (d !! "q"))
  ∧ written !! "update_id" = Some (of_optional_float ots)
  ∧ (∀ k, k ∉ trade_keys → written !! k = d !! k).
Proof.
  intros HS. cbn zeta. rewrite trade_message_run, HS. simpl.
  rewrite lookup_total_insert_eq.
  repeat split;
    try (rewrite lookup_union, trade_entries_lookup; simpl;
         match goal with |- context [merged h msg metadata !! ?k] =>
           by destruct (merged h msg metadata !! k) end).
  intros k Hk. rewrite lookup_union, trade_entries_other by done.
  by destruct (merged h msg metadata !! k).
Qed.

(** X5: when metadata is given, each of its entries replaces the entry of
    the same key in the frame and all other entries of the frame stay; the
    side of a trade is looked up after that, so a side supplied by the
    metadata is enough for [trade_message_from_exchange] to succeed. *)
Theorem metadata_wins_key_by_key
    (msg md : loc) (ts : float) (ots : option float) (h : heap) (k : string) :
  let from_md := (h !!! md : gmap string value) !! k in
  let from_msg := (h !!! msg : gmap string value) !! k in
  let expected := match from_md with Some v => Some v | None => from_msg end in
  (snd (snapshot_message_from_exchange msg ts (Some md) h) !!! msg
     : gmap string value) !! k = expected
  ∧ (snd (diff_message_from_exchange msg ots (Some md) h) !!! msg
       : gmap string value) !! k = expected
  ∧ (is_Some ((h !!! md : gmap string value) !! "S") →
     fst (trade_message_from_exchange SELL BUY msg ots (Some md) h)
     = Ret {| message_type := TRADE; content := msg; timestamp := ots |}).
Proof.
  cbn zeta. rewrite snapshot_message_run, diff_message_run, trade_message_run.
  cbn [fst snd]. rewrite after_merge_msg, !merged_lookup.
  split; [done|]. split; [done|].
  intros [side HS]. by rewrite HS.
Qed.

(** X6: building a snapshot or a diff message a second time from the same
    dict and metadata returns the same message and leaves the store as the
    first call left it. *)
Theorem snapshot_and_diff_are_idempotent
    (msg : loc) (ts : float) (ots : option float) (metadata : option loc)
    (h : heap) :
  snapshot_message_from_exchange msg ts metadata
    (snd (snapshot_message_from_exchange msg ts metadata h))
  = snapshot_message_from_exchange msg ts metadata h
  ∧ diff_message_from_exchange msg ots metadata
      (snd (diff_message_from_exchange msg ots metadata h))
    = diff_message_from_exchange msg ots metadata h.
Proof.
  rewrite !snapshot_message_run, !diff_message_run. simpl.
  by rewrite after_merge_idem.
Qed.

(** Merging reads the same entries before and after a first merge. *)
Lemma merged_after_merge (h : heap) (msg : loc) (metadata : option loc) :
  merged (after_merge h msg metadata) msg metadata = merged h msg metadata.
Proof.
  rewrite <- (after_merge_msg (after_merge h msg metadata)).
  by rewrite after_merge_idem, after_merge_msg.
Qed.

(** The merge either leaves the store alone or replaces [msg]. *)
Lemma insert_after_merge (h : heap) (msg : loc) (metadata : option loc)
    (x : gmap string value) :
  <[msg := x]> (after_merge h msg metadata) = <[msg := x]> h.
Proof.
  unfold after_merge. destruct metadata as [md|]; [|done].
  destruct (bool_decide (h !!! md = ∅)); [done|].
  by rewrite insert_insert_eq.
Qed.

Lemma after_merge_other (h : heap) (msg : loc) (metadata : option loc) (l : loc) :
  l ≠ msg →
  (after_merge h msg metadata !!! l : gmap string value) = h !!! l.
Proof.
  intros Hl. by rewrite !lookup_total_alt, after_merge_frame.
Qed.

(** The trade entries depend on the frame through "t", "p" and "q" only. *)
Lemma trade_entries_ext (side : value) (ots : option float)
    (d d' : gmap string value) :
  (∀ k, k ∉ trade_keys → d' !! k = d !! k) →
  trade_entries SELL BUY side ots d' = trade_entries SELL BUY side ots d.
Proof.
  intros Hd. unfold trade_entries.
  rewrite !Hd; [done|unfold trade_keys; not_in_actions..].
Qed.

(** Outside the five trade keys, a frame that already went through
    [trade_message_from_exchange] merges to what it merged to before. *)
Lemma merged_after_trade (h : heap) (msg : loc) (metadata : option loc)
    (side : value) (ots : option float) (k : string) :
  let d := merged h msg metadata in
  k ∉ trade_keys →
  merged (<[msg := trade_entries SELL BUY side ots d ∪ d]>
          (after_merge h msg metadata)) msg metadata !! k
  = d !! k.
Proof.
  cbn zeta. intros Hk.
  pose proof (trade_entries_other side ots (merged h msg metadata) k Hk) as HE.
  pose proof (after_merge_other h msg metadata) as Hother.
  assert (Hd : ∀ md, metadata = Some md → md ≠ msg →
            merged h msg metadata !! k
            = match (h !!! md : gmap string value) !! k with
              | Some v => Some v
              | None => (h !!! msg : gmap string value) !! k
              end).
  { intros md -> _. apply merged_lookup. }
  generalize dependent (trade_entries SELL BUY side ots (merged h msg metadata)).
  generalize dependent (merged h msg metadata).
  generalize dependent (after_merge h msg metadata).
  intros h1 Hother d Hd E HE. unfold merged.
  destruct metadata as [md|].
  - destruct (decide (md = msg)) as [->|Hne].
    + rewrite lookup_total_insert_eq, (idemp_L (∪)), lookup_union, HE.
      by destruct (d !! k).
    + rewrite lookup_total_insert_eq, lookup_total_insert_ne by done.
      rewrite Hother by done.
      rewrite !lookup_union, HE, (Hd md eq_refl Hne).
      by destruct ((h !!! md : gmap string value) !! k),
                  ((h !!! msg : gmap string value) !! k).
  - rewrite lookup_total_insert_eq, lookup_union, HE.
    by destruct (d !! k).
Qed.

(** The trade entries hide whatever the frame holds under their keys. *)
Lemma trade_union_ext (side : value) (ots : option float)
    (d d' : gmap string value) :
  (∀ k, k ∉ trade_keys → d' !! k = d !! k) →
  trade_entries SELL BUY side ots d ∪ d' = trade_entries SELL BUY side ots d ∪ d.
Proof.
  intros Hd. apply map_eq. intros k. rewrite !lookup_union.
  destruct (decide (k ∈ trade_keys)) as [Hin|Hout]; [|by rewrite Hd].
  rewrite trade_entries_lookup. unfold trade_keys in Hin.
  repeat (case_bool_decide; [by rewrite !union_Some_l|]).
  exfalso. repeat (apply elem_of_cons in Hin as [?|Hin]; [done|]).
  by apply elem_of_nil in Hin.
Qed.

(** X7: building a trade message a second time from the same dict,
    timestamp and metadata gives the result of the first call and leaves the
    store as the first call left it, whether the first call returned a
    message or raised KeyError. *)
Theorem trade_message_is_idempotent
    (msg : loc) (ots : option float) (metadata : option loc) (h : heap) :
  trade_message_from_exchange SELL BUY msg ots metadata
    (snd (trade_message_from_exchange SELL BUY msg ots metadata h))
  = trade_message_from_exchange SELL BUY msg ots metadata h.
Proof.
  rewrite (trade_message_run SELL BUY msg ots metadata h).
  destruct (merged h msg metadata !! "S") as [side|] eqn:HS.
  all: cbn [snd].
  - rewrite trade_message_run.
    assert (HK : "S" ∉ trade_keys) by (unfold trade_keys; not_in_actions).
    pose proof (merged_after_trade h msg metadata side ots) as HM.
    cbn zeta in HM. rewrite (HM "S" HK), HS.
    rewrite (trade_entries_ext side ots (merged h msg metadata)) by exact HM.
    rewrite insert_after_merge, insert_insert_eq.
    rewrite (trade_union_ext side ots (merged h msg metadata) _ HM).
    reflexivity.
  - by rewrite trade_message_run, merged_after_merge, HS, after_merge_idem.
Qed.

(** X8: messages built from one dict share it: after a snapshot message
    and then a diff message have been made from the same [msg], both carry
    the same object, and the first message now reads the entries the second
    call merged in. *)
Theorem messages_share_their_dict
    (msg : loc) (ts : float) (ots : option float) (md1 md2 : option loc)
    (h : heap) :
  let first := snapshot_message_from_exchange msg ts md1 h in
  let second := diff_message_from_exchange msg ots md2 (snd first) in
  ∃ m1 m2,
    fst first = Ret m1 ∧ fst second = Ret m2
    ∧ content m1 = content m2
    ∧ payload m1 (snd second) = payload m2 (snd second)
    ∧ payload m1 (snd second) = merged (snd first) msg md2.
Proof.
  cbn zeta. rewrite snapshot_message_run. simpl. rewrite diff_message_run.
  simpl. eexists _, _. split; [reflexivity|]. split; [reflexivity|].
  unfold payload. simpl. by rewrite after_merge_msg.
Qed.

End WazirxOrderBookFurther.

Section WazirxOrderBookFurtherExamples.
Import Py WazirxOrderBook.

Lemma exchange_agrees_with_db_without_metadata_witness :
  snapshot_message_from_exchange 1 (float_of_int 5) (Some 3%positive) sample_store
  = snapshot_message_from_db
      {| json := 1; row_timestamp := Some (float_of_int 5) |}
      (Some 3%positive) sample_store
  ∧ diff_message_from_exchange 1 None None sample_store
    = diff_message_from_db {| json := 1; row_timestamp := None |} None sample_store.
Proof.
  split.
  - apply (exchange_agrees_with_db_without_metadata 1 (float_of_int 5) None
             (Some 3%positive) sample_store).
    right. exists 3%positive. split; [reflexivity|]. vm_compute. reflexivity.
  - apply (exchange_agrees_with_db_without_metadata 1 (float_of_int 5) None
             None sample_store).
    left. reflexivity.
Defined.

Lemma trade_type_follows_side_witness :
  (snd (trade_message_from_exchange 2 1 1 None None sample_store) !!! 1%positive
     : gmap string value) !! "trade_type"
  = Some (VFloat (float_of_int 2))
  ∧ (snd (trade_message_from_exchange 2 1 1 None None
            (<[1%positive := {["S" := VStr "SELL"]}]> ∅)) !!! 1%positive
       : gmap string value) !! "trade_type"
    = Some (VFloat (float_of_int 1)).
Proof.
  split.
  - pose proof (trade_type_follows_side 2 1 1 None None sample_store
                  (VStr "sell")) as H.
    cbn zeta in H. destruct H as [H _]; [vm_compute; reflexivity|].
    apply H. reflexivity.
  - pose proof (trade_type_follows_side 2 1 1 None None
                  (<[1%positive := {["S" := VStr "SELL"]}]> ∅)
                  (VStr "SELL")) as H.
    cbn zeta in H. destruct H as [_ H]; [vm_compute; reflexivity|].
    apply H. discriminate.
Defined.

Lemma trade_fields_are_copied_witness :
  let written : gmap string value :=
    snd (trade_message_from_exchange 2 1 1 (Some (float_of_int 5))
           (Some 2%positive) sample_store) !!! 1%positive in
  written !! "price" = Some (VStr "100.5")
  ∧ written !! "trade_id" = Some VNone
  ∧ written !! "trading_pair" = Some (VStr "btcinr").
Proof.
  cbn zeta.
  pose proof (trade_fields_are_copied 2 1 1 (Some (float_of_int 5))
                (Some 2%positive) sample_store (VStr "sell")) as H.
  cbn zeta in H.
  destruct H as (Hid & Hprice & _ & _ & Hother); [vm_compute; reflexivity|].
  split; [|split].
  - etrans; [exact Hprice|]. vm_compute. reflexivity.
  - etrans; [exact Hid|]. vm_compute. reflexivity.
  - etrans; [apply Hother; unfold trade_keys; not_in_actions|].
    vm_compute. reflexivity.
Defined.

Lemma metadata_wins_key_by_key_witness :
  let h : heap :=
    <[1%positive := {["p" := VStr "7"]}]> {[2%positive := {["S" := VStr "buy"]}]} in
  fst (trade_message_from_exchange 2 1 1 None (Some 2%positive) h)
  = Ret {| message_type := TRADE; content := 1; timestamp := None |}.
Proof.
  cbn zeta.
  apply (metadata_wins_key_by_key 2 1 1 2 (float_of_int 5) None
           (<[1%positive := {["p" := VStr "7"]}]>
              {[2%positive := {["S" := VStr "buy"]}]}) "S").
  exists (VStr "buy"). vm_compute. reflexivity.
Defined.

End WazirxOrderBookFurtherExamples.

(* ===================================================================== *)
(* Further properties of the logger accessor                             *)
(* ===================================================================== *)

Section LoggerFurther.
Import Py WazirxOrderBook.

Lemma getLogger_keeps_slot (name : string) (g : Globals) :
  _logger (snd (getLogger name g)) = _logger g.
Proof. unfold getLogger. by destruct (loggerDict g !! name). Qed.

Lemma getLogger_keeps_registered (name other : string) (g : Globals) (l : loc) :
  loggerDict g !! other = Some l →
  loggerDict (snd (getLogger name g)) !! other = Some l.
Proof.
  intros Hl. unfold getLogger.
  destruct (loggerDict g !! name) eqn:E; [done|]. simpl.
  rewrite lookup_insert_ne; [done|]. intros ->. congruence.
Qed.

Lemma getLogger_registers (name : string) (g : Globals) :
  loggerDict (snd (getLogger name g)) !! name = Some (fst (getLogger name g)).
Proof.
  unfold getLogger. destruct (loggerDict g !! name) eqn:E; [done|]. simpl.
  by rewrite lookup_insert_eq.
Qed.

Lemma perform_keeps_slot_registered (g : Globals) (c : LoggingCall) :
  slot_is_registered g → slot_is_registered (perform g c).
Proof.
  intros Hg l. destruct c as [|name]; simpl.
  - unfold logger. destruct (_logger g) as [l0|] eqn:E; [by apply Hg|].
    pose proof (getLogger_registers __name__ g) as Hreg.
    destruct (getLogger __name__ g) as [l1 g1]. simpl in *. congruence.
  - rewrite getLogger_keeps_slot. intros Hl.
    by apply getLogger_keeps_registered, Hg.
Qed.

Lemma calls_keep_slot_registered (cs : list LoggingCall) (g : Globals) :
  slot_is_registered g → slot_is_registered (foldl perform g cs).
Proof.
  revert g. induction cs as [|c cs IH]; intros g Hg; [done|].
  simpl. by apply IH, perform_keeps_slot_registered.
Qed.

(** X9: starting from a module whose slot is still empty, after any
    sequence of calls of [logger] and of [logging.getLogger] (for any names),
    [logger] returns the very object that [logging.getLogger] returns for the
    module's name, and that object is the one registered under this name. *)
Theorem logger_is_the_registered_logger (g0 : Globals) (cs : list LoggingCall) :
  _logger g0 = None →
  let g := foldl perform g0 cs in
  fst (logger g) = fst (getLogger __name__ g)
  ∧ loggerDict (snd (logger g)) !! __name__ = Some (fst (logger g)).
Proof.
  intros H0. cbn zeta.
  assert (Hg : slot_is_registered (foldl perform g0 cs)).
  { apply calls_keep_slot_registered. intros l. by rewrite H0. }
  generalize dependent (foldl perform g0 cs). intros g Hg.
  unfold logger. destruct (_logger g) as [l|] eqn:E.
  - specialize (Hg l E). unfold getLogger. by rewrite Hg.
  - pose proof (getLogger_registers __name__ g) as Hreg.
    by destruct (getLogger __name__ g) as [l1 g1].
Qed.

End LoggerFurther.

Section LoggerFurtherExamples.
Import Py WazirxOrderBook.

Lemma logger_is_the_registered_logger_witness :
  let g0 := {| _logger := None; loggerDict := {["asyncio" := 3%positive]};
               next_id := 4 |} in
  let g := foldl perform g0 [CallGetLogger "hummingbot"; CallLogger; CallLogger] in
  fst (logger g) = 5%positive
  ∧ loggerDict (snd (logger g)) !! __name__ = Some 5%positive.
Proof.
  cbn zeta.
  pose proof (logger_is_the_registered_logger
                {| _logger := None; loggerDict := {["asyncio" := 3%positive]};
                   next_id := 4 |}
                [CallGetLogger "hummingbot"; CallLogger; CallLogger] eq_refl) as H.
  cbn zeta in H. destruct H as [Hl Hreg].
  split; [etrans; [exact Hl|]|etrans; [exact Hreg|]]; vm_compute; reflexivity.
Defined.

End LoggerFurtherExamples.

(* ===================================================================== *)
(* Further properties of the configuration helpers                       *)
(* ===================================================================== *)

Section ConfigMethodsFurther.
Import Py ConfigMethods.

(** In-place changes touch no collection but the one the attribute names. *)
Lemma mutations_keep_others (ms : list Mutation) (s : Settings) (l : loc) :
  l ≠ required_exchanges s →
  collections (foldl mutate s ms) !!! l = collections s !!! l.
Proof.
  revert s. induction ms as [|m ms IH]; intros s Hl; [done|].
  simpl. rewrite IH by done. simpl. by rewrite lookup_total_insert_ne.
Qed.

(** X11: whatever was done in place to the collection since the callable
    was created, appending the exchange makes the callable answer True,
    clearing the collection makes it answer False, appending another name
    changes nothing, and extending by a list adds membership in that list. *)
Theorem using_exchange_follows_append_and_clear
    (exchange other : string) (xs : list string) (created : Settings)
    (ms : list Mutation) :
  let f := using_exchange exchange created in
  let now := foldl mutate created ms in
  call f (mutate now (Append exchange)) = true
  ∧ call f (mutate now Clear) = false
  ∧ (other ≠ exchange → call f (mutate now (Append other)) = call f now)
  ∧ call f (mutate now (Extend xs)) = call f now || bool_decide (exchange ∈ xs).
Proof.
  cbn zeta. unfold using_exchange, call, mutate. simpl.
  rewrite mutations_keep_binding, !lookup_total_insert_eq. simpl.
  set (l := collections (foldl mutate created ms) !!! required_exchanges created).
  split; [|split; [|split]].
  - apply bool_decide_eq_true. apply elem_of_app. right. apply list_elem_of_here.
  - done.
  - intros Hne. apply bool_decide_ext. rewrite elem_of_app, list_elem_of_singleton.
    split; [intros [?|?]; [done|by subst]|by left].
  - rewrite <- bool_decide_or. apply bool_decide_ext, elem_of_app.
Qed.

(** X13: the callable keeps the collection object that the module
    attribute named when [using_exchange] ran.  Once the attribute is bound
    to another object, nothing that is done in place through the attribute
    changes the answer of a callable created before, while a callable
    created afterwards reads the new object. *)
Theorem using_exchange_ignores_rebinding
    (exchange : string) (created : Settings) (new : loc) (ms : list Mutation) :
  new ≠ required_exchanges created →
  let later := foldl mutate (rebind created new) ms in
  call (using_exchange exchange created) later
  = call (using_exchange exchange created) created
  ∧ call (using_exchange exchange (rebind created new)) later
    = bool_decide (exchange ∈ current_required_exchanges later).
Proof.
  intros Hnew. cbn zeta.
  unfold using_exchange, call, current_required_exchanges.
  rewrite mutations_keep_binding. split; [|done].
  by rewrite mutations_keep_others.
Qed.

End ConfigMethodsFurther.

Section ConfigMethodsFurtherExamples.
Import Py ConfigMethods.

Lemma using_exchange_follows_append_and_clear_witness :
  call (using_exchange "wazirx" sample_settings)
       (mutate sample_settings (Append "bitmart"))
  = call (using_exchange "wazirx" sample_settings) sample_settings.
Proof.
  pose proof (using_exchange_follows_append_and_clear "wazirx" "bitmart" []
                sample_settings []) as H.
  cbn zeta in H. destruct H as (_ & _ & Hother & _).
  apply Hother. discriminate.
Defined.

Lemma using_exchange_ignores_rebinding_witness :
  let later := foldl mutate (rebind sample_settings 2) [Append "binance"; Clear] in
  call (using_exchange "binance" sample_settings) later = true
  ∧ call (using_exchange "binance" (rebind sample_settings 2)) later = false.
Proof.
  cbn zeta.
  pose proof (using_exchange_ignores_rebinding "binance" sample_settings 2
                [Append "binance"; Clear]) as H.
  cbn zeta in H. destruct H as [Hold Hnew]; [discriminate|].
  split.
  - etrans; [exact Hold|]. vm_compute. reflexivity.
  - etrans; [exact Hnew|]. vm_compute. reflexivity.
Defined.

End ConfigMethodsFurtherExamples.

(* ===================================================================== *)
(* The log handler of the user-stream tests                              *)
(* ===================================================================== *)

Section UserStreamTestsProperties.
Import UserStreamTests.

Lemma handle_all (log_records records : list LogRecord) :
  foldl handle log_records records = log_records ++ records.
Proof.
  revert log_records. induction records as [|r records IH]; intros log_records.
  - by rewrite app_nil_r.
  - simpl. rewrite IH. unfold handle. by rewrite <- app_assoc.
Qed.

(** X12: [_is_logged] answers True exactly when a record with this level
    name and this message (both on the same record, compared exactly) has
    been handled since [setUp]; records handled later never hide it, and
    right after [setUp] nothing counts as logged. *)
Theorem is_logged_iff_handled
    (records : list LogRecord) (log_level message : string) :
  (_is_logged (foldl handle setUp records) log_level message = true
   ↔ {| levelname := log_level; getMessage := message |} ∈ records)
  ∧ (∀ more,
       _is_logged (foldl handle setUp records) log_level message = true →
       _is_logged (foldl handle setUp (records ++ more)) log_level message = true)
  ∧ _is_logged setUp log_level message = false.
Proof.
  assert (Hiff : ∀ rs,
            _is_logged rs log_level message = true
            ↔ {| levelname := log_level; getMessage := message |} ∈ rs).
  { intros rs. unfold _is_logged. rewrite existsb_exists. split.
    - intros ([lvl msg] & Hin & Hr). apply andb_true_iff in Hr as [H1 H2].
      apply bool_decide_eq_true in H1, H2. simpl in *. subst.
      by apply list_elem_of_In.
    - intros Hin. eexists. split; [by apply list_elem_of_In|]. simpl.
      by rewrite !bool_decide_eq_true_2. }
  rewrite !handle_all. unfold setUp. simpl. split; [apply Hiff|]. split; [|done].
  intros more. rewrite handle_all. simpl. rewrite !Hiff, elem_of_app. tauto.
Qed.

End UserStreamTestsProperties.

Section UserStreamTestsExamples.
Import UserStreamTests.

Lemma is_logged_iff_handled_witness :
  let records :=
    [ {| levelname := "INFO"; getMessage := "Authenticating to User Stream..." |};
      {| levelname := "ERROR";
         getMessage := "Error occurred when authenticating to user stream." |} ] in
  _is_logged (foldl handle setUp records) "ERROR"
    "Error occurred when authenticating to user stream." = true
  ∧ ({| levelname := "INFO";
        getMessage := "Error occurred when authenticating to user stream." |}
     ∉ records).
Proof.
  cbn zeta. split.
  - apply is_logged_iff_handled. in_actions.
  - intros Hin. apply is_logged_iff_handled in Hin. discriminate Hin.
Defined.

End UserStreamTestsExamples.
